(** * The job-posting ETL pipeline of [airflow/dags/etl.py]

    A shallow embedding of the four Airflow tasks ([create_tables],
    [extract], [transform], [load]) and of [clean_description], with the
    staging directories and the SQLite sink as explicit state. *)

From Stdlib Require Import Ascii.
From stdpp Require Import gmap strings list fin_maps pretty.

Set Warnings "-register-all,-clear-no-such-hyp".
Set Default Proof Using "Type".

(** ** Python text

    A Python [str] is a sequence of Unicode code points.  Identifiers that are
    only compared for equality (dictionary keys, column, table and file names)
    are kept as [string]. *)

Abbreviation str := (list N).

Definition lit (s : string) : str :=
  Ascii.N_of_ascii <$> String.list_ascii_of_string s.

Definition space : N := 32%N.

(** [str.isspace] on one code point.  [str.strip] and the [\s] class of [re]
    on a [str] pattern both use this predicate. *)
Definition isspace (c : N) : bool :=
  ((9 <=? c) && (c <=? 13) || (28 <=? c) && (c <=? 32)
   || (c =? 133) || (c =? 160) || (c =? 5760)
   || (8192 <=? c) && (c <=? 8202)
   || (c =? 8232) || (c =? 8233) || (c =? 8239) || (c =? 8287)
   || (c =? 12288))%N.

Fixpoint lstrip (s : str) : str :=
  match s with
  | [] => []
  | c :: r => if isspace c then lstrip r else s
  end.

Definition rstrip (s : str) : str := reverse (lstrip (reverse s)).

(** [s.strip()] *)
Definition strip (s : str) : str := rstrip (lstrip s).

(** [re.sub(r'\s+', ' ', s)]: scanning left to right, a whitespace character
    starts a match, the match extends over the whole run ([+] is greedy), and
    the run is replaced by one space.  [sub_spaces] is the scanner outside a
    run and [sub_spaces_run] the scanner inside one. *)
Fixpoint sub_spaces (s : str) : str :=
  match s with
  | [] => []
  | c :: r => if isspace c then space :: sub_spaces_run r else c :: sub_spaces r
  end
with sub_spaces_run (s : str) : str :=
  match s with
  | [] => []
  | c :: r => if isspace c then sub_spaces_run r else c :: sub_spaces r
  end.

(** ** Python values and exceptions *)

(** The scalars a cell of a [pandas] row can hold.  A float is used by this
    program only through [str()], so it is carried as its [repr] text
    (['nan'] for a missing cell). *)
Inductive pyvalue :=
  | PyNone
  | PyBool (b : bool)
  | PyInt (z : Z)
  | PyFloat (repr : str)
  | PyStr (s : str).

Inductive exn :=
  | FileNotFoundError
  | FileExistsError
  | TypeError
  | AttributeError
  | KeyError (k : string)
  | JSONDecodeError
  | ParserError
  | SqliteError.

Inductive result (A : Type) :=
  | Ok (a : A)
  | Raise (e : exn).
Arguments Ok {A} a.
Arguments Raise {A} e.

Definition isinstance_str (v : pyvalue) : bool :=
  match v with PyStr _ => true | _ => false end.

(** [str(v)] *)
Definition py_str (v : pyvalue) : str :=
  match v with
  | PyNone => lit "None"
  | PyBool true => lit "True"
  | PyBool false => lit "False"
  | PyInt z => lit (pretty z)
  | PyFloat repr => repr
  | PyStr s => s
  end.

(** [description.strip()] exists only on a [str]; any other value raises
    [AttributeError]. *)
Definition clean_description (description : pyvalue) : result str :=
  match description with
  | PyStr s => Ok (sub_spaces (strip s))
  | _ => Raise AttributeError
  end.

(** ** The words of a text

    [words s] lists the maximal runs of non-whitespace characters of [s], in
    order (Python's [s.split()]); [unwords] joins words with single spaces
    ([' '.join]).  They state what normalisation computes without following
    the way [clean_description] computes it. *)

Definition push_word (w : str) (ws : list str) : list str :=
  match w with [] => ws | _ => w :: ws end.

(** [scan s] is the word that [s] starts with (empty when [s] starts with
    whitespace or is empty) and the words after it. *)
Fixpoint scan (s : str) : str * list str :=
  match s with
  | [] => ([], [])
  | c :: r =>
      let '(w, ws) := scan r in
      if isspace c then ([], push_word w ws) else (c :: w, ws)
  end.

Definition words (s : str) : list str :=
  let '(w, ws) := scan s in push_word w ws.

Fixpoint unwords (ws : list str) : str :=
  match ws with
  | [] => []
  | [w] => w
  | w :: ws' => w ++ space :: unwords ws'
  end.


(** ** Exceptions as results *)

#[global] Instance result_ret : MRet result := λ A a, Ok a.
#[global] Instance result_bind : MBind result := λ A B k r,
  match r with Ok a => k a | Raise e => Raise e end.

(** ** Python objects

    What [json.load] returns and [json.dump] accepts, and what the hook
    fetches: a row of a result set is a tuple.  A float is carried as its
    text, as in [pyvalue]. *)
Inductive pyobj :=
  | ONone
  | OBool (b : bool)
  | OInt (z : Z)
  | OFloat (repr : str)
  | OStr (s : str)
  | OList (l : list pyobj)
  | OTuple (l : list pyobj)
  | ODict (m : gmap string pyobj).

(** [d[k]] *)
Definition getitem (d : pyobj) (k : string) : result pyobj :=
  match d with
  | ODict m => match m !! k with Some v => Ok v | None => Raise (KeyError k) end
  | _ => Raise TypeError
  end.

(** [{**d, "job_id": job_id}] *)
Definition with_job_id (d : pyobj) (job_id : pyobj) : result pyobj :=
  match d with
  | ODict m => Ok (ODict (<["job_id" := job_id]> m))
  | _ => Raise TypeError
  end.

(** ** The SQLite sink *)

Inductive sqlvalue :=
  | SqlNull
  | SqlInt (z : Z)
  | SqlReal (repr : str)
  | SqlText (s : str).

(** The values [sqlite3] binds to a placeholder; a list, a tuple or a
    dictionary is refused. *)
Definition to_sql (v : pyobj) : option sqlvalue :=
  match v with
  | ONone => Some SqlNull
  | OBool b => Some (SqlInt (if b then 1 else 0))
  | OInt z => Some (SqlInt z)
  | OFloat r => Some (SqlReal r)
  | OStr s => Some (SqlText s)
  | OList _ | OTuple _ | ODict _ => None
  end.

Record foreign_key := ForeignKey {
  fk_column : string;
  fk_table : string;
  fk_target : string
}.

(** [CREATE TABLE IF NOT EXISTS name (columns, foreign keys)] and
    [INSERT INTO name (c1, ..., cn) VALUES (:c1, ..., :cn)]. *)
Inductive statement :=
  | CreateTableIfNotExists
      (name : string) (columns : list (string * string)) (fks : list foreign_key)
  | InsertInto (name : string) (columns : list string).

Inductive query :=
  | SelectLastInsertRowid.

(** A row maps column names to values; an absent column is [NULL]. *)
Record table := Table {
  tbl_columns : list (string * string);
  tbl_foreign_keys : list foreign_key;
  tbl_sequence : Z;
  tbl_rows : list (gmap string sqlvalue)
}.

(** What the hook was asked to do, in order. *)
Inductive event :=
  | Ran (s : statement) (parameters : option pyobj)
  | Fetched (q : query).

(** The database file: what is committed. *)
Record database := Database {
  tables : gmap string table;
  journal : list event
}.

(** A connection to the file.  [last_insert_rowid()] is the identifier of the
    last row inserted through this connection, 0 when there is none. *)
Record connection := Connection {
  store : database;
  last_insert_rowid : Z
}.

(** [sqlite3.connect] *)
Definition connect (d : database) : connection := Connection d 0.

Definition log (e : event) (d : database) : database :=
  {| tables := tables d; journal := journal d ++ [e] |}.

Definition bind_parameters (parameters : option pyobj) (cols : list string)
  : option (list sqlvalue) :=
  match parameters with
  | Some (ODict m) => mapM (λ c, m !! c ≫= to_sql) cols
  | _ => None
  end.

(** [cursor.execute(s, parameters)].  [AUTOINCREMENT] gives the new row the
    identifier after the largest one the table ever used.  Column affinity
    and foreign-key enforcement (off by default in SQLite) are left out. *)
Definition execute (s : statement) (parameters : option pyobj) (c : connection)
  : result connection :=
  let d := store c in
  match s with
  | CreateTableIfNotExists name cols fks =>
      match tables d !! name with
      | Some _ => Ok c
      | None =>
          Ok {| store := {| tables := <[name := Table cols fks 0 []]> (tables d);
                            journal := journal d |};
                last_insert_rowid := last_insert_rowid c |}
      end
  | InsertInto name cols =>
      match tables d !! name with
      | None => Raise SqliteError
      | Some t =>
          if forallb (λ c, bool_decide (c ∈ (tbl_columns t).*1)) cols then
            match bind_parameters parameters cols with
            | None => Raise SqliteError
            | Some vs =>
                let id := (tbl_sequence t + 1)%Z in
                let row := <["id" := SqlInt id]> (list_to_map (zip cols vs)) in
                Ok {| store :=
                        {| tables :=
                             <[name := Table (tbl_columns t) (tbl_foreign_keys t)
                                         id (tbl_rows t ++ [row])]> (tables d);
                           journal := journal d |};
                      last_insert_rowid := id |}
            end
          else Raise SqliteError
      end
  end.

(** [cursor.execute(q)] followed by [cursor.fetchone()] *)
Definition fetchone (q : query) (c : connection) : pyobj :=
  match q with
  | SelectLastInsertRowid => OTuple [OInt (last_insert_rowid c)]
  end.

(** ** The world of a task: staging files, console and sink *)

Abbreviation path := (list string).

Record world := World {
  dirs : gset path;
  files : gmap path str;
  stdout : list string;
  db : database
}.

Definition set_dirs (f : gset path → gset path) (w : world) : world :=
  {| dirs := f (dirs w); files := files w; stdout := stdout w; db := db w |}.
Definition set_files (f : gmap path str → gmap path str) (w : world) : world :=
  {| dirs := dirs w; files := f (files w); stdout := stdout w; db := db w |}.
Definition set_db (d : database) (w : world) : world :=
  {| dirs := dirs w; files := files w; stdout := stdout w; db := d |}.

(** A task is a state transformer that may raise; the state reached when it
    raises is kept (nothing is rolled back). *)
Definition M (A : Type) : Type := world → world * result A.

#[global] Instance M_ret : MRet M := λ A a w, (w, Ok a).
#[global] Instance M_bind : MBind M := λ A B k m w,
  match m w with
  | (w', Ok a) => k a w'
  | (w', Raise e) => (w', Raise e)
  end.

Definition raise {A} (e : exn) : M A := λ w, (w, Raise e).

Definition lift {A} (r : result A) : M A := λ w, (w, r).

(** [try: ... except ...] hands the outcome of the body to the handler. *)
Definition attempt {A} (m : M A) : M (result A) := λ w,
  let '(w', r) := m w in (w', Ok r).

(** [for x in l: body(x)] *)
Fixpoint for_each {A} (l : list A) (body : A → M unit) : M unit :=
  match l with
  | [] => mret tt
  | x :: l' => body x ;; for_each l' body
  end.

Definition print (line : string) : M unit := λ w,
  ({| dirs := dirs w; files := files w; stdout := stdout w ++ [line];
      db := db w |}, Ok tt).

(** *** Files *)

Definition path_text (p : path) : string := String.concat "/" p.

(** [os.path.join(d, name)] for a relative [name] without separator *)
Definition path_join (d : path) (name : string) : path := d ++ [name].

Definition parent (p : path) : path := removelast p.

Definition dir_exists (p : path) (w : world) : bool :=
  bool_decide (p = [] ∨ p ∈ dirs w).

Definition prefixes (p : path) : list path :=
  (λ n, take n p) <$> seq 1 (length p).

(** [os.makedirs(p, exist_ok=exist_ok)] *)
Definition os_makedirs (p : path) (exist_ok : bool) : M unit := λ w,
  if dir_exists p w then
    if exist_ok then (w, Ok tt) else (w, Raise FileExistsError)
  else (set_dirs (λ ds, ds ∪ list_to_set (prefixes p)) w, Ok tt).

(** [open(p, 'w')] creates or empties the file. *)
Definition open_w (p : path) : M unit := λ w,
  if dir_exists (parent p) w then (set_files <[p := []]> w, Ok tt)
  else (w, Raise FileNotFoundError).

(** [file.write(v)] *)
Definition file_write (p : path) (v : pyvalue) : M unit := λ w,
  match v with
  | PyStr s => (set_files (λ fs, <[p := default [] (fs !! p) ++ s]> fs) w, Ok tt)
  | _ => (w, Raise TypeError)
  end.

(** [open(p, 'r')] followed by [file.read()] *)
Definition file_read (p : path) : M str := λ w,
  match files w !! p with
  | Some s => (w, Ok s)
  | None => (w, Raise FileNotFoundError)
  end.

Definition entry_of (d : path) (p : path) : option string :=
  match last p with
  | Some name => if bool_decide (p = path_join d name) then Some name else None
  | None => None
  end.

(** [str.endswith] and [str.replace] *)
Definition endswith (s suffix : string) : bool :=
  String.prefix (String.rev suffix) (String.rev s).

Fixpoint replace_from (old new : string) (skip : nat) (s : string) : string :=
  match s with
  | EmptyString => EmptyString
  | String c r =>
      match skip with
      | S k => replace_from old new k r
      | O =>
          if String.prefix old s
          then new +:+ replace_from old new (String.length old - 1) r
          else String c (replace_from old new 0 r)
      end
  end.

Definition replace (s old new : string) : string := replace_from old new 0 s.

(** *** The hook

    Every call on [SqliteHook] opens a connection of its own
    ([DbApiHook.run] and [get_first] both go through [get_conn], which for
    SQLite is a fresh [sqlite3.connect]), commits and closes it. *)

(** [sqlite_hook.run(s, parameters=...)]: the statement takes effect at once
    and stays when a later one fails. *)
Definition hook_run (s : statement) (parameters : option pyobj) : M unit := λ w,
  let c := connect (log (Ran s parameters) (db w)) in
  match execute s parameters c with
  | Ok c' => (set_db (store c') w, Ok tt)
  | Raise e => (set_db (store c) w, Raise e)
  end.

(** [sqlite_hook.get_first(q)] returns the first row of the result. *)
Definition hook_get_first (q : query) : M pyobj := λ w,
  let c := connect (log (Fetched q) (db w)) in
  (set_db (store c) w, Ok (fetchone q c)).

(** ** The tasks *)

Abbreviation dataframe := (list (gmap string pyvalue)).

Definition TABLE_CREATION_QUERIES : list statement := [
  CreateTableIfNotExists "job"
    [("id", "INTEGER PRIMARY KEY AUTOINCREMENT");
     ("title", "VARCHAR(225)");
     ("industry", "VARCHAR(225)");
     ("description", "TEXT");
     ("employment_type", "VARCHAR(125)");
     ("date_posted", "DATE")]
    [];
  CreateTableIfNotExists "company"
    [("id", "INTEGER PRIMARY KEY AUTOINCREMENT");
     ("job_id", "INTEGER");
     ("name", "VARCHAR(225)");
     ("link", "TEXT")]
    [ForeignKey "job_id" "job" "id"];
  CreateTableIfNotExists "education"
    [("id", "INTEGER PRIMARY KEY AUTOINCREMENT");
     ("job_id", "INTEGER");
     ("required_credential", "VARCHAR(225)")]
    [ForeignKey "job_id" "job" "id"];
  CreateTableIfNotExists "experience"
    [("id", "INTEGER PRIMARY KEY AUTOINCREMENT");
     ("job_id", "INTEGER");
     ("months_of_experience", "INTEGER");
     ("seniority_level", "VARCHAR(25)")]
    [ForeignKey "job_id" "job" "id"];
  CreateTableIfNotExists "salary"
    [("id", "INTEGER PRIMARY KEY AUTOINCREMENT");
     ("job_id", "INTEGER");
     ("currency", "VARCHAR(3)");
     ("min_value", "NUMERIC");
     ("max_value", "NUMERIC");
     ("unit", "VARCHAR(12)")]
    [ForeignKey "job_id" "job" "id"];
  CreateTableIfNotExists "location"
    [("id", "INTEGER PRIMARY KEY AUTOINCREMENT");
     ("job_id", "INTEGER");
     ("country", "VARCHAR(60)");
     ("locality", "VARCHAR(60)");
     ("region", "VARCHAR(60)");
     ("postal_code", "VARCHAR(25)");
     ("street_address", "VARCHAR(225)");
     ("latitude", "NUMERIC");
     ("longitude", "NUMERIC")]
    [ForeignKey "job_id" "job" "id"]
].

Definition create_tables : M unit :=
  for_each TABLE_CREATION_QUERIES (λ query, hook_run query None).

Definition source_file_path : path := ["source"; "jobs.csv"].
Definition extracted_dir : path := ["staging"; "extracted"].
Definition transformed_dir : path := ["staging"; "transformed"].

Definition insert_job_query : statement :=
  InsertInto "job"
    ["title"; "industry"; "description"; "employment_type"; "date_posted"].
Definition get_job_id_query : query := SelectLastInsertRowid.
Definition insert_company_query : statement :=
  InsertInto "company" ["job_id"; "name"; "link"].
Definition insert_education_query : statement :=
  InsertInto "education" ["job_id"; "required_credential"].
Definition insert_experience_query : statement :=
  InsertInto "experience" ["job_id"; "months_of_experience"; "seniority_level"].
Definition insert_salary_query : statement :=
  InsertInto "salary" ["job_id"; "currency"; "min_value"; "max_value"; "unit"].
Definition insert_location_query : statement :=
  InsertInto "location"
    ["job_id"; "country"; "locality"; "region"; "postal_code";
     "street_address"; "latitude"; "longitude"].

(** The body of the loop of [load] from the six subscripts on: all sections
    are looked up before the first statement runs. *)
Definition load_record (transformed_data : pyobj) : M unit :=
  job_data ← lift (getitem transformed_data "job");
  company_data ← lift (getitem transformed_data "company");
  education_data ← lift (getitem transformed_data "education");
  experience_data ← lift (getitem transformed_data "experience");
  salary_data ← lift (getitem transformed_data "salary");
  location_data ← lift (getitem transformed_data "location");
  hook_run insert_job_query (Some job_data);;
  job_id ← hook_get_first get_job_id_query;
  parameters ← lift (with_job_id company_data job_id);
  hook_run insert_company_query (Some parameters);;
  parameters ← lift (with_job_id education_data job_id);
  hook_run insert_education_query (Some parameters);;
  parameters ← lift (with_job_id experience_data job_id);
  hook_run insert_experience_query (Some parameters);;
  parameters ← lift (with_job_id salary_data job_id);
  hook_run insert_salary_query (Some parameters);;
  parameters ← lift (with_job_id location_data job_id);
  hook_run insert_location_query (Some parameters).

(** The record [transform] builds around a cleaned description. *)
Definition transformed_record (description : str) : pyobj :=
  ODict (list_to_map [
    ("job", ODict (list_to_map [
       ("title", OStr (lit "job_title"));
       ("industry", OStr (lit "job_industry"));
       ("description", OStr description);
       ("employment_type", OStr (lit "job_employment_type"));
       ("date_posted", OStr (lit "job_date_posted"))]));
    ("company", ODict (list_to_map [
       ("name", OStr (lit "company_name"));
       ("link", OStr (lit "company_linkedin_link"))]));
    ("education", ODict (list_to_map [
       ("required_credential", OStr (lit "job_required_credential"))]));
    ("experience", ODict (list_to_map [
       ("months_of_experience", OStr (lit "job_months_of_experience"));
       ("seniority_level", OStr (lit "seniority_level"))]));
    ("salary", ODict (list_to_map [
       ("currency", OStr (lit "salary_currency"));
       ("min_value", OStr (lit "salary_min_value"));
       ("max_value", OStr (lit "salary_max_value"));
       ("unit", OStr (lit "salary_unit"))]));
    ("location", ODict (list_to_map [
       ("country", OStr (lit "country"));
       ("locality", OStr (lit "locality"));
       ("region", OStr (lit "region"));
       ("postal_code", OStr (lit "postal_code"));
       ("street_address", OStr (lit "street_address"));
       ("latitude", OStr (lit "latitude"));
       ("longitude", OStr (lit "longitude"))]))]).

(** The body of the loop of [extract] for the row at position [index]. *)
Definition extract_row (index : nat) (row : gmap string pyvalue) : M unit :=
  let context := default (PyStr []) (row !! "context") in
  let context :=
    if negb (isinstance_str context) then PyStr (py_str context) else context in
  let file_path := path_join extracted_dir ("job_" +:+ pretty index +:+ ".txt") in
  open_w file_path;;
  file_write file_path context.

(** [n] runs of a task in a row, stopping at the first that raises. *)
Fixpoint repeat_task (n : nat) (task : M unit) : M unit :=
  match n with
  | O => mret tt
  | S k => task;; repeat_task k task
  end.

(** ** Vocabulary of the statements *)

(** The artifact of the row at position [index], and the text it holds. *)
Definition job_file (index : nat) : path :=
  path_join extracted_dir ("job_" +:+ pretty index +:+ ".txt").

Definition context_text (row : gmap string pyvalue) : str :=
  py_str (default (PyStr []) (row !! "context")).

(** The artifacts of a frame: one per row, named by the row's position. *)
Definition artifacts_of (df : dataframe) : gmap path str :=
  list_to_map (imap (λ index row, (job_file index, context_text row)) df).

(** The six sections of a record, which are also the six tables; the first
    is the parent. *)
Definition sections : list string :=
  ["job"; "company"; "education"; "experience"; "salary"; "location"].
Definition child_tables : list string :=
  ["company"; "education"; "experience"; "salary"; "location"].

Definition created_table (s : statement) : option string :=
  match s with
  | CreateTableIfNotExists name _ _ => Some name
  | InsertInto _ _ => None
  end.

Definition table_rows (name : string) (d : database) : list (gmap string sqlvalue) :=
  default [] (tbl_rows <$> tables d !! name).

(** The tables of [TABLE_CREATION_QUERIES] are there, with their columns. *)
Definition schema_ready (d : database) : bool :=
  forallb (λ s,
    match s with
    | CreateTableIfNotExists name cols _ =>
        match tables d !! name with
        | Some t => bool_decide (tbl_columns t = cols)
        | None => false
        end
    | InsertInto _ _ => true
    end) TABLE_CREATION_QUERIES.

Definition bindable (m : gmap string pyobj) (c : string) : bool :=
  match m !! c ≫= to_sql with Some _ => true | None => false end.


Definition section_ok (data : pyobj) (section : string) (fields : list string)
  : bool :=
  match getitem data section with
  | Ok (ODict m) => forallb (bindable m) fields
  | _ => false
  end.

(** A record artifact is well formed when it has the six sections, each a
    dictionary that holds a scalar for every field its [INSERT] names. *)
Definition well_formed (data : pyobj) : bool :=
  section_ok data "job"
    ["title"; "industry"; "description"; "employment_type"; "date_posted"]
  && section_ok data "company" ["name"; "link"]
  && section_ok data "education" ["required_credential"]
  && section_ok data "experience" ["months_of_experience"; "seniority_level"]
  && section_ok data "salary" ["currency"; "min_value"; "max_value"; "unit"]
  && section_ok data "location"
       ["country"; "locality"; "region"; "postal_code"; "street_address";
        "latitude"; "longitude"].

(** A task that leaves the staging area as it is. *)
Definition keeps_files {A} (m : M A) : Prop :=
  ∀ w w' r, m w = (w', r) → files w' = files w ∧ dirs w' = dirs w.

(** A text is tidy when it neither starts nor ends with whitespace and its
    only whitespace is single spaces.  [tidy_after b s] reads [s] after a
    character that was whitespace ([b = true]) or was not. *)
Fixpoint tidy_after (after_space : bool) (s : str) : bool :=
  match s with
  | [] => negb after_space
  | c :: r =>
      if isspace c
      then negb after_space && bool_decide (c = space) && tidy_after true r
      else tidy_after false r
  end.

Definition tidy (s : str) : bool :=
  match s with
  | [] => true
  | _ => tidy_after true s
  end.

(** Stand-ins for the codecs, to run the tasks on an example: the frame of
    the two-row scenario, and a record written as its description alone. *)
Definition sample_frame : dataframe :=
  [ {["context" := PyStr (lit "Hello   world" ++ [10%N])]};
    {["context" := PyInt 42]} ].
Definition sample_parse_csv (text : str) : option dataframe := Some sample_frame.
Definition sample_json_dumps (data : pyobj) : str :=
  match getitem data "job" ≫= (λ job, getitem job "description") with
  | Ok (OStr description) => description
  | _ => lit "{}"
  end.
Definition sample_json_loads (text : str) : option pyobj :=
  if decide (text = lit "{}") then Some (ODict ∅)
  else Some (transformed_record text).


(** A world for the examples: the source file is there, nothing else is. *)
Definition empty_database : database := Database ∅ [].
Definition sample_world : world :=
  World ∅ {[ source_file_path := lit "context" ]} [] empty_database.
Definition blank_world : world := World ∅ ∅ [] empty_database.



Section Tasks.

(** The codecs of [pandas] and [json], and the order in which the operating
    system lists the names of a directory, are parameters. *)
Variable parse_csv : str → option dataframe.
Variable json_dumps : pyobj → str.
Variable json_loads : str → option pyobj.
Variable os_order : list string → list string.

(** [pd.read_csv(p)] *)
Definition pd_read_csv (p : path) : M dataframe := λ w,
  match files w !! p with
  | None => (w, Raise FileNotFoundError)
  | Some text =>
      match parse_csv text with
      | Some df => (w, Ok df)
      | None => (w, Raise ParserError)
      end
  end.

(** [os.listdir(d)] *)
Definition os_listdir (d : path) : M (list string) := λ w,
  if dir_exists d w
  then (w, Ok (os_order (omap (entry_of d) (map_to_list (files w)).*1)))
  else (w, Raise FileNotFoundError).

(** [json.load(file)] on the file opened at [p] *)
Definition json_load (p : path) : M pyobj :=
  text ← file_read p;
  match json_loads text with
  | Some data => mret data
  | None => raise JSONDecodeError
  end.

(** [json.dump(data, file)] on the file opened at [p] *)
Definition json_dump (data : pyobj) (p : path) : M unit :=
  file_write p (PyStr (json_dumps data)).

Definition extract : M unit :=
  os_makedirs extracted_dir true;;
  r ← attempt (pd_read_csv source_file_path);
  match r with
  | Raise FileNotFoundError =>
      print ("Error: The source file '" +:+ path_text source_file_path
             +:+ "' does not exist.")
  | Raise e => raise e
  | Ok df =>
      for_each (imap pair df) (λ '(index, row), extract_row index row);;
      print ("Extracted " +:+ pretty (length df)
             +:+ " rows and saved as text files in " +:+ path_text extracted_dir)
  end.

(** The body of the loop of [transform] *)
Definition transform_file (filename : string) : M unit :=
  if endswith filename ".txt" then
    let file_path := path_join extracted_dir filename in
    context ← file_read file_path;
    description ← lift (clean_description (PyStr context));
    let transformed_data := transformed_record description in
    let transformed_file_path :=
      path_join transformed_dir (replace filename ".txt" ".json") in
    open_w transformed_file_path;;
    json_dump transformed_data transformed_file_path
  else mret tt.

Definition transform : M unit :=
  os_makedirs transformed_dir true;;
  names ← os_listdir extracted_dir;
  for_each names transform_file.

(** The body of the loop of [load] *)
Definition load_file (file_name : string) : M unit :=
  if endswith file_name ".json" then
    let file_path := path_join transformed_dir file_name in
    transformed_data ← json_load file_path;
    load_record transformed_data
  else mret tt.

Definition load : M unit :=
  names ← os_listdir transformed_dir;
  for_each names load_file;;
  print ("Data loaded successfully into the SQLite database from "
         +:+ path_text transformed_dir).

(** [create_tables >> extract() >> transform() >> load()] *)
Definition etl_dag : M unit :=
  create_tables;; extract;; transform;; load.

End Tasks.

(** * Properties *)

(** ** Whitespace normalisation *)

Lemma isspace_space : isspace space = true.
Proof. reflexivity. Qed.

Lemma lstrip_spaces (g : str) : forallb isspace g = true → lstrip g = [].
Proof.
  induction g as [|c g IH]; simpl; [done|].
  intros [Hc Hg]%andb_prop. rewrite Hc. auto.
Qed.

Lemma lstrip_app_spaces (g s : str) :
  forallb isspace g = true → lstrip (g ++ s) = lstrip s.
Proof.
  induction g as [|c g IH]; simpl; [done|].
  intros [Hc Hg]%andb_prop. rewrite Hc. auto.
Qed.

(** What [lstrip] removes is whitespace. *)
Lemma lstrip_split (s : str) :
  ∃ g, forallb isspace g = true ∧ s = g ++ lstrip s.
Proof.
  induction s as [|c s [g [Hg Hs]]]; simpl.
  - by exists [].
  - destruct (isspace c) eqn:Hc.
    + exists (c :: g). simpl. rewrite Hc, Hg. split; [done|]. by f_equal.
    + by exists [].
Qed.

Lemma lstrip_head (s : str) c r : lstrip s = c :: r → isspace c = false.
Proof.
  induction s as [|d s IH]; simpl; [done|].
  destruct (isspace d) eqn:Hd; [done|]. by intros [= -> ->].
Qed.

Lemma rstrip_snoc (s : str) c :
  rstrip (s ++ [c]) = if isspace c then rstrip s else s ++ [c].
Proof.
  unfold rstrip. rewrite reverse_snoc. simpl.
  destruct (isspace c); [done|].
  by rewrite reverse_cons, reverse_involutive.
Qed.

Lemma rstrip_split (s : str) :
  ∃ g, forallb isspace g = true ∧ s = rstrip s ++ g.
Proof.
  unfold rstrip. destruct (lstrip_split (reverse s)) as [g [Hg Hs]].
  exists (reverse g). split.
  - rewrite forallb_forall in *. intros x Hx. apply Hg.
    apply list_elem_of_In, elem_of_reverse. by apply list_elem_of_In.
  - rewrite <- reverse_app, <- Hs. by rewrite reverse_involutive.
Qed.

(** The last character of a stripped text, if any, is not whitespace. *)
Definition ends_clean (s : str) : Prop :=
  match last s with Some c => isspace c = false | None => True end.

Lemma rstrip_ends_clean (s : str) : ends_clean (rstrip s).
Proof.
  unfold ends_clean, rstrip.
  destruct (lstrip (reverse s)) as [|c r] eqn:E; [done|].
  rewrite reverse_cons, last_snoc. by eapply lstrip_head.
Qed.

Lemma ends_clean_cons c (r : str) :
  ends_clean (c :: r) → r ≠ [] → ends_clean r.
Proof. unfold ends_clean. destruct r; [done|]. by rewrite last_cons_cons. Qed.

Lemma ends_clean_space_cons c (r : str) :
  ends_clean (c :: r) → isspace c = true → r ≠ [] ∧ ends_clean r.
Proof.
  intros Hq Hc. assert (r ≠ []) as Hr.
  { intros ->. unfold ends_clean in Hq. simpl in Hq. congruence. }
  split; [done|]. by eapply ends_clean_cons.
Qed.

Lemma scan_cons c (r : str) :
  scan (c :: r) =
    if isspace c then ([], words r) else (c :: (scan r).1, (scan r).2).
Proof. unfold words. simpl. by destruct (scan r). Qed.

Lemma words_cons c (r : str) :
  words (c :: r) =
    if isspace c then words r else (c :: (scan r).1) :: (scan r).2.
Proof. unfold words at 1. rewrite scan_cons. by destruct (isspace c). Qed.

Lemma words_scan (s : str) : words s = push_word (scan s).1 (scan s).2.
Proof. unfold words. by destruct (scan s). Qed.

Lemma words_spaces (g : str) : forallb isspace g = true → words g = [].
Proof.
  induction g as [|c g IH]; [done|]. simpl.
  intros [Hc Hg]%andb_prop. rewrite words_cons, Hc. auto.
Qed.

Lemma words_spaces_app (g s : str) :
  forallb isspace g = true → words (g ++ s) = words s.
Proof.
  induction g as [|c g IH]; [done|]. simpl.
  intros [Hc Hg]%andb_prop. rewrite words_cons, Hc. auto.
Qed.

Lemma scan_app_spaces (s g : str) :
  forallb isspace g = true → scan (s ++ g) = scan s.
Proof.
  intros Hg. induction s as [|c s IH].
  - simpl. destruct g as [|d g]; [done|].
    rewrite scan_cons. simpl in Hg. apply andb_prop in Hg as [Hd Hg].
    by rewrite Hd, words_spaces.
  - rewrite <- app_comm_cons, !scan_cons, !words_scan, IH. done.
Qed.

Lemma words_app_spaces (s g : str) :
  forallb isspace g = true → words (s ++ g) = words s.
Proof. intros Hg. by rewrite !words_scan, scan_app_spaces. Qed.

Lemma words_lstrip (s : str) : words (lstrip s) = words s.
Proof.
  destruct (lstrip_split s) as [g [Hg Hs]].
  rewrite Hs at 2. by rewrite words_spaces_app.
Qed.

Lemma words_rstrip (s : str) : words (rstrip s) = words s.
Proof.
  destruct (rstrip_split s) as [g [Hg Hs]].
  rewrite Hs at 2. by rewrite words_app_spaces.
Qed.

Lemma words_strip (s : str) : words (strip s) = words s.
Proof. unfold strip. by rewrite words_rstrip, words_lstrip. Qed.

Lemma words_nonempty (s : str) : ends_clean s → s ≠ [] → words s ≠ [].
Proof.
  induction s as [|c r IH]; [done|]. intros Hq _.
  rewrite words_cons. destruct (isspace c) eqn:Hc; [|done].
  destruct (ends_clean_space_cons _ _ Hq Hc). auto.
Qed.

Lemma unwords_cons_char c (w : str) ws :
  unwords ((c :: w) :: ws) = c :: unwords (w :: ws).
Proof. simpl. by destruct ws. Qed.

Lemma unwords_cons (w : str) ws :
  ws ≠ [] → unwords (w :: ws) = w ++ space :: unwords ws.
Proof. by destruct ws. Qed.

Lemma scan_head_space c (r : str) : isspace c = true → (scan (c :: r)).1 = [].
Proof. intros Hc. by rewrite scan_cons, Hc. Qed.

(** On a text with no trailing whitespace, both scanners produce the words
    joined by single spaces; outside a run, leading whitespace leaves one
    space in front. *)
Lemma sub_spaces_words (s : str) :
  ends_clean s →
  sub_spaces_run s = unwords (words s) ∧
  sub_spaces s =
    match s with
    | c :: _ => if isspace c then space :: unwords (words s) else unwords (words s)
    | [] => []
    end.
Proof.
  induction s as [|c r IH]; [done|]. intros Hq.
  simpl sub_spaces. simpl sub_spaces_run. rewrite words_cons.
  destruct (isspace c) eqn:Hc.
  - destruct (ends_clean_space_cons _ _ Hq Hc) as [Hr Hq'].
    destruct (IH Hq') as [IH1 IH2]. by rewrite IH1.
  - assert (c :: sub_spaces r = unwords ((c :: (scan r).1) :: (scan r).2)); [|done].
    destruct r as [|d r']; [done|].
    assert (ends_clean (d :: r')) as Hq' by (by eapply ends_clean_cons).
    destruct (IH Hq') as [_ IH2]. rewrite IH2.
    pose proof (words_nonempty _ Hq' ltac:(done)) as Hne.
    destruct (isspace d) eqn:Hd.
    + rewrite words_scan in *. rewrite scan_head_space in * by done.
      simpl push_word in *. by rewrite unwords_cons.
    + rewrite words_cons, Hd, scan_cons, Hd. simpl fst. simpl snd.
      by rewrite (unwords_cons_char c).
Qed.

Lemma strip_ends_clean (s : str) : ends_clean (strip s).
Proof. apply rstrip_ends_clean. Qed.

Lemma rstrip_head (s : str) c r :
  rstrip s = c :: r → ∃ r', s = c :: r'.
Proof.
  destruct (rstrip_split s) as [g [_ Hs]]. intros E.
  rewrite E in Hs. by exists (r ++ g).
Qed.

Lemma strip_head (s : str) c r : strip s = c :: r → isspace c = false.
Proof.
  unfold strip. intros [r' E]%rstrip_head. by eapply lstrip_head.
Qed.

(** [sub_spaces (strip s)] is the words of [s] joined by single spaces. *)
Lemma sub_spaces_strip (s : str) : sub_spaces (strip s) = unwords (words s).
Proof.
  destruct (sub_spaces_words (strip s) (strip_ends_clean s)) as [_ H].
  rewrite H, words_strip. destruct (strip s) as [|c r] eqn:E.
  - rewrite <- words_strip, E. done.
  - by rewrite (strip_head _ _ _ E).
Qed.

(** *** Words are well formed, and joining then splitting gives them back *)

Definition notspace (c : N) : bool := negb (isspace c).

Definition word (w : str) : Prop := w ≠ [] ∧ forallb notspace w = true.

Lemma scan_word_app (w x : str) :
  forallb notspace w = true → scan (w ++ x) = (w ++ (scan x).1, (scan x).2).
Proof.
  induction w as [|c w IH]; simpl app.
  - by destruct (scan x).
  - simpl forallb. intros [Hc Hw]%andb_prop. rewrite scan_cons, IH by done.
    unfold notspace in Hc. by destruct (isspace c).
Qed.

Lemma words_word (w : str) : word w → words w = [w].
Proof.
  intros [Hne Hw]. rewrite words_scan.
  rewrite <- (app_nil_r w) at 1 2. rewrite scan_word_app by done.
  simpl. rewrite app_nil_r. by destruct w.
Qed.

Lemma words_word_space (w rest : str) :
  word w → words (w ++ space :: rest) = w :: words rest.
Proof.
  intros [Hne Hw]. rewrite words_scan, scan_word_app by done.
  rewrite scan_cons, isspace_space. simpl. rewrite app_nil_r. by destruct w.
Qed.

Lemma words_unwords (ws : list str) : Forall word ws → words (unwords ws) = ws.
Proof.
  induction 1 as [|w ws Hw Hws IH]; [done|].
  destruct ws as [|w' ws'].
  - by apply words_word.
  - rewrite unwords_cons by done. rewrite words_word_space by done. by f_equal.
Qed.

Lemma scan_wf (s : str) :
  forallb notspace (scan s).1 = true ∧ Forall word (scan s).2.
Proof.
  induction s as [|c r [IH1 IH2]]; [by split|].
  rewrite scan_cons. destruct (isspace c) eqn:Hc; simpl.
  - split; [done|]. rewrite words_scan.
    destruct (scan r).1 as [|d w] eqn:E; simpl; [done|].
    constructor; [|done]. by split.
  - split; [|done]. unfold notspace at 1. by rewrite Hc.
Qed.

Lemma words_wf (s : str) : Forall word (words s).
Proof.
  destruct (scan_wf s) as [H1 H2]. rewrite words_scan.
  destruct (scan s).1 as [|d w] eqn:E; simpl; [done|].
  constructor; [|done]. by split.
Qed.

(** The words of [s] are its non-whitespace characters, in order. *)
Lemma words_concat (s : str) : concat (words s) = filter (λ c, isspace c = false) s.
Proof.
  assert (∀ s, (scan s).1 ++ concat (scan s).2
               = filter (λ c, isspace c = false) s) as H.
  { clear s. induction s as [|c r IH]; [done|].
    rewrite scan_cons, words_scan.
    destruct (isspace c) eqn:Hc; simpl.
    - rewrite filter_cons_False by congruence. rewrite <- IH.
      by destruct (scan r).1.
    - rewrite filter_cons_True by done. by rewrite <- IH. }
  rewrite words_scan, <- H. by destruct (scan s).1.
Qed.

Example words_example :
  words (lit "  two  words ") = [lit "two"; lit "words"].
Proof. reflexivity. Qed.

(** Tab, newline, no-break space and a trailing newline around three words. *)
Example clean_description_example :
  clean_description (PyStr [72; 9; 10; 32; 105; 160; 33; 10]%N)
  = Ok [72; 32; 105; 32; 33]%N.
Proof. reflexivity. Qed.

Example clean_description_scenario :
  clean_description (PyStr (lit "Hello   world" ++ [10%N]))
  = Ok (lit "Hello world").
Proof. reflexivity. Qed.

(** Without the coercion of [extract], a value that is no string would stop
    both the write and the normalisation. *)
Example clean_description_int :
  clean_description (PyInt 42) = Raise AttributeError.
Proof. reflexivity. Qed.

(** C2: for every string, [clean_description] returns, without raising, the
    words of the input (its maximal runs of non-whitespace characters, in
    order) joined by single spaces: every maximal run of whitespace between
    two words has become one space, and leading and trailing whitespace is
    gone.  For an empty or whitespace-only input the result is the empty
    string. *)
Theorem clean_description_normalises (s : str) :
  clean_description (PyStr s) = Ok (unwords (words s)) ∧
  (forallb isspace s = true → clean_description (PyStr s) = Ok []).
Proof.
  unfold clean_description. rewrite sub_spaces_strip. split; [done|].
  intros Hs. by rewrite words_spaces.
Qed.

Lemma clean_description_normalises_witness :
  forallb isspace (lit "   ") = true ∧
  clean_description (PyStr (lit "   ")) = Ok [].
Proof.
  split; [reflexivity|].
  apply (proj2 (clean_description_normalises (lit "   "))). reflexivity.
Defined.

(** C3: normalisation is idempotent: [clean_description] applied to the
    text that [clean_description] returned for [s] returns that same text,
    as [clean_description] does on [s]. *)
Theorem clean_description_idempotent (s : str) :
  clean_description (PyStr s) ≫= (λ t, clean_description (PyStr t))
  = clean_description (PyStr s).
Proof.
  unfold clean_description. simpl. rewrite !sub_spaces_strip.
  by rewrite words_unwords by apply words_wf.
Qed.

(** ** The task monad *)

Lemma bind_ok {A B} (m : M A) (k : A → M B) w w' a :
  m w = (w', Ok a) → (m ≫= k) w = k a w'.
Proof. unfold mbind, M_bind. by intros ->. Qed.

Lemma bind_raise {A B} (m : M A) (k : A → M B) w w' e :
  m w = (w', Raise e) → (m ≫= k) w = (w', Raise e).
Proof. unfold mbind, M_bind. by intros ->. Qed.


(** ** Extract *)

Lemma string_length_app (s t : string) :
  String.length (s +:+ t) = String.length s + String.length t.
Proof. induction s as [|c s IH]; simpl; [done|]. by rewrite IH. Qed.

Lemma app_string_inj_r (s1 s2 t : string) : s1 +:+ t = s2 +:+ t → s1 = s2.
Proof.
  revert s2. induction s1 as [|c s1 IH]; intros [|d s2]; simpl; try done.
  - intros H. apply (f_equal String.length) in H.
    rewrite !string_length_app in H. simpl in H. lia.
  - intros H. apply (f_equal String.length) in H.
    rewrite !string_length_app in H. simpl in H. lia.
  - intros [= -> H]. f_equal. by apply IH.
Qed.

Lemma job_file_inj i j : job_file i = job_file j → i = j.
Proof.
  unfold job_file, path_join. intros H. apply app_inv_head in H.
  injection H as H. apply String.app_inj in H. apply app_string_inj_r in H.
  by apply pretty_nat_inj in H.
Qed.

Lemma dir_exists_makedirs p exist_ok w w' r :
  os_makedirs p exist_ok w = (w', r) → dir_exists p w' = true.
Proof.
  unfold os_makedirs. destruct (dir_exists p w) eqn:E.
  - destruct exist_ok; by intros [= <- <-].
  - intros [= <- <-]. unfold dir_exists in *. apply bool_decide_eq_true.
    apply bool_decide_eq_false in E. right. simpl.
    apply elem_of_union_r, elem_of_list_to_set. unfold prefixes.
    apply list_elem_of_fmap. exists (length p). split.
    + by rewrite firstn_all.
    + apply elem_of_seq. destruct p; [|simpl; lia]. by destruct E; left.
Qed.

Lemma os_makedirs_exist_ok p w r w' :
  os_makedirs p true w = (w', r) →
  r = Ok tt ∧ files w' = files w ∧ stdout w' = stdout w ∧ db w' = db w
  ∧ dirs w ⊆ dirs w'.
Proof.
  unfold os_makedirs. destruct (dir_exists p w); intros [= <- <-]; simpl;
    repeat split; set_solver.
Qed.

Lemma extract_row_ok index row w :
  dir_exists extracted_dir w = true →
  extract_row index row w
  = (set_files <[job_file index := context_text row]> w, Ok tt).
Proof.
  intros Hd. unfold extract_row.
  set (context := if negb _ then _ else _).
  assert (context = PyStr (context_text row)) as ->.
  { unfold context, context_text. by destruct (default _ _). }
  fold (job_file index). erewrite bind_ok; last first.
  { unfold open_w. change (parent (job_file index)) with extracted_dir.
    by rewrite Hd. }
  unfold file_write, set_files. simpl. rewrite lookup_insert_eq. simpl.
  by rewrite insert_insert_eq.
Qed.

Lemma set_files_id w : set_files (λ fs, ∅ ∪ fs) w = w.
Proof. destruct w. unfold set_files. simpl. by rewrite (left_id_L ∅ (∪)). Qed.

#[local] Instance job_file_inj' : Inj (=) (=) job_file.
Proof. intros i j. apply job_file_inj. Qed.

Lemma artifact_keys (k : nat) (df : dataframe) :
  (imap (λ i row, (job_file (k + i), context_text row)) df).*1
  = job_file <$> seq k (length df).
Proof.
  rewrite fmap_imap.
  rewrite (imap_ext _ (λ i _, job_file (k + i))) by done.
  apply imap_seq.
Qed.

Lemma artifact_keys_NoDup (k : nat) (df : dataframe) :
  NoDup (imap (λ i row, (job_file (k + i), context_text row)) df).*1.
Proof. rewrite artifact_keys. apply NoDup_fmap_2; [apply _|apply NoDup_seq]. Qed.

(** The loop of [extract] writes the artifacts of the rows over the files
    that were there. *)
Lemma extract_rows_ok (k : nat) (df : dataframe) w :
  dir_exists extracted_dir w = true →
  for_each (imap (λ i row, (k + i, row)) df)
    (λ '(index, row), extract_row index row) w
  = (set_files
       (λ fs, list_to_map
                (imap (λ i row, (job_file (k + i), context_text row)) df) ∪ fs)
       w, Ok tt).
Proof.
  revert k w. induction df as [|row df IH]; intros k w Hd.
  - simpl. by rewrite set_files_id.
  - rewrite !imap_cons. simpl for_each.
    erewrite bind_ok; [|by apply extract_row_ok].
    rewrite (imap_ext _ (λ i row, (S k + i, row))); last first.
    { intros i x _. simpl. f_equal. lia. }
    rewrite IH by done.
    rewrite (imap_ext ((λ i row, (job_file (k + i), context_text row)) ∘ S)
               (λ i row, (job_file (S k + i), context_text row))); last first.
    { intros i x _. simpl. do 2 f_equal. lia. }
    f_equal. unfold set_files. simpl. f_equal.
    rewrite Nat.add_0_r. rewrite <- insert_union_l, insert_union_r; [done|].
    apply not_elem_of_list_to_map_1. rewrite (artifact_keys (S k)).
    intros (j & Hj & Hin)%list_elem_of_fmap. apply job_file_inj in Hj.
    apply elem_of_seq in Hin. lia.
Qed.

Lemma artifacts_of_lookup (df : dataframe) p s :
  artifacts_of df !! p = Some s
  ↔ ∃ index row, df !! index = Some row ∧ p = job_file index
                 ∧ s = context_text row.
Proof.
  unfold artifacts_of. rewrite <- elem_of_list_to_map by apply (artifact_keys_NoDup 0).
  rewrite elem_of_lookup_imap. split.
  - intros (i & row & [= -> ->] & Hrow). by exists i, row.
  - intros (i & row & Hrow & -> & ->). by exists i, row.
Qed.


(** What [extract] does on a source that reads as the frame [df]. *)
Lemma extract_readable parse_csv w text df :
  files w !! source_file_path = Some text →
  parse_csv text = Some df →
  ∃ w1,
    os_makedirs extracted_dir true w = (w1, Ok tt) ∧
    extract parse_csv w =
      ({| dirs := dirs w1; files := artifacts_of df ∪ files w;
          stdout := stdout w
            ++ ["Extracted " +:+ pretty (length df)
                +:+ " rows and saved as text files in staging/extracted"];
          db := db w |}, Ok tt).
Proof.
  intros Hsrc Hparse.
  destruct (os_makedirs extracted_dir true w) as [w1 r] eqn:Hmk.
  destruct (os_makedirs_exist_ok _ _ _ _ Hmk) as (-> & Hf & Hs & Hdb & _).
  exists w1. split; [done|]. unfold extract.
  erewrite bind_ok by done.
  erewrite bind_ok; last first.
  { unfold attempt, pd_read_csv. by rewrite Hf, Hsrc, Hparse. }
  simpl. erewrite bind_ok; last first.
  { apply (extract_rows_ok 0). by eapply dir_exists_makedirs. }
  unfold print, set_files. simpl. by rewrite Hf, Hs, Hdb.
Qed.









(** ** Extract, then transform *)

Lemma string_app_cons c (s t : string) : String c s +:+ t = String c (s +:+ t).
Proof. done. Qed.






Example file_write_int w :
  file_write (job_file 0) (PyInt 42) w = (w, Raise TypeError).
Proof. reflexivity. Qed.

Example makedirs_twice_without_exist_ok :
  (os_makedirs extracted_dir false;; os_makedirs extracted_dir false)
    blank_world
  = ((os_makedirs extracted_dir false blank_world).1, Raise FileExistsError).
Proof. reflexivity. Qed.



(** ** The schema *)

Lemma hook_run_create name cols fks w :
  ∃ w', hook_run (CreateTableIfNotExists name cols fks) None w = (w', Ok tt) ∧
        dirs w' = dirs w ∧ files w' = files w ∧ stdout w' = stdout w ∧
        tables (db w') =
          match tables (db w) !! name with
          | Some _ => tables (db w)
          | None => <[name := Table cols fks 0 []]> (tables (db w))
          end.
Proof.
  unfold hook_run. simpl. destruct (tables (db w) !! name); by eexists.
Qed.

Lemma create_all (qs : list statement) w :
  Forall (λ q, is_Some (created_table q)) qs →
  ∃ w', for_each qs (λ query, hook_run query None) w = (w', Ok tt) ∧
        dirs w' = dirs w ∧ files w' = files w ∧ stdout w' = stdout w ∧
        dom (tables (db w'))
          = dom (tables (db w)) ∪ list_to_set (omap created_table qs) ∧
        (∀ name t, tables (db w) !! name = Some t →
                   tables (db w') !! name = Some t) ∧
        (list_to_set (omap created_table qs) ⊆ dom (tables (db w)) →
         tables (db w') = tables (db w)).
Proof.
  intros Hqs. revert w. induction Hqs as [|q qs [name Hq] _ IH]; intros w.
  - exists w. simpl. repeat split; try done. set_solver.
  - destruct q as [name' cols fks|]; [|done]. injection Hq as ->.
    destruct (hook_run_create name cols fks w)
      as (w1 & Hrun & Hd1 & Hf1 & Hs1 & Ht1).
    destruct (IH w1) as (w' & Hrest & Hd & Hf & Hs & Hdom & Hkeep & Hsame).
    exists w'. simpl for_each. erewrite bind_ok by done.
    split; [done|]. rewrite Hd, Hf, Hs, Hdom. repeat split; try done.
    + simpl. rewrite Ht1. destruct (tables (db w) !! name) eqn:E.
      * apply (elem_of_dom_2 (tables (db w))) in E. set_solver.
      * rewrite dom_insert_L. set_solver.
    + intros name' t Hl'. apply Hkeep. rewrite Ht1.
      destruct (tables (db w) !! name) eqn:E; [done|].
      rewrite lookup_insert_ne; [done|]. congruence.
    + simpl. intros Hsub.
      assert (name ∈ dom (tables (db w))) as [t E]%elem_of_dom by set_solver.
      rewrite E in Ht1. rewrite Hsame; [done|]. rewrite Ht1. set_solver.
Qed.

Lemma create_tables_ok w :
  ∃ w', create_tables w = (w', Ok tt) ∧
        dirs w' = dirs w ∧ files w' = files w ∧ stdout w' = stdout w ∧
        dom (tables (db w')) = dom (tables (db w)) ∪ list_to_set sections ∧
        (∀ name t, tables (db w) !! name = Some t →
                   tables (db w') !! name = Some t) ∧
        (list_to_set sections ⊆ dom (tables (db w)) →
         tables (db w') = tables (db w)).
Proof.
  destruct (create_all TABLE_CREATION_QUERIES w)
    as (w' & Hrun & Hd & Hf & Hs & Hdom & Hkeep & Hsame).
  { repeat constructor; by eexists. }
  exists w'. by repeat split.
Qed.

(** C7: [create_tables] never raises, and after a first run any number of
    further runs leaves every table (its columns and its rows) as it is and
    adds none; the first run adds the six tables that were missing and keeps
    the tables that were there. *)
Theorem create_tables_idempotent w (n : nat) :
  ∃ w1 wn,
    create_tables w = (w1, Ok tt) ∧
    repeat_task n create_tables w1 = (wn, Ok tt) ∧
    tables (db wn) = tables (db w1) ∧
    dom (tables (db w1)) = dom (tables (db w)) ∪ list_to_set sections ∧
    (∀ name t, tables (db w) !! name = Some t →
               tables (db w1) !! name = Some t).
Proof.
  destruct (create_tables_ok w) as (w1 & Hrun & _ & _ & _ & Hdom & Hkeep & _).
  assert (∀ n w2, tables (db w2) = tables (db w1) →
            ∃ wn, repeat_task n create_tables w2 = (wn, Ok tt)
                  ∧ tables (db wn) = tables (db w1)) as Hrep.
  { clear n. induction n as [|n IH]; intros w2 H2.
    - by exists w2.
    - destruct (create_tables_ok w2) as (w3 & Hrun3 & _ & _ & _ & _ & _ & Hsame).
      destruct (IH w3) as (wn & Hn & Htn).
      { rewrite Hsame; [done|]. rewrite H2, Hdom. set_solver. }
      exists wn. simpl. by erewrite bind_ok. }
  destruct (Hrep n w1 eq_refl) as (wn & Hn & Htn).
  by exists w1, wn.
Qed.

(** ** Load *)












(** The two-row scenario, run through the whole pipeline with the stand-in
    codecs: [extract] and [transform] write their artifacts, and [load] raises
    at the first record, after its [job] row and before any child row. *)
Example etl_dag_scenario :
  let w := (etl_dag sample_parse_csv sample_json_dumps sample_json_loads id
              sample_world).1 in
  (etl_dag sample_parse_csv sample_json_dumps sample_json_loads id
     sample_world).2 = Raise SqliteError ∧
  files w !! path_join extracted_dir "job_0.txt"
  = Some (lit "Hello   world" ++ [10%N]) ∧
  files w !! path_join extracted_dir "job_1.txt" = Some (lit "42") ∧
  files w !! path_join transformed_dir "job_0.json" = Some (lit "Hello world") ∧
  files w !! path_join transformed_dir "job_1.json" = Some (lit "42") ∧
  length (table_rows "job" (db w)) = 1 ∧
  Forall (λ child, table_rows child (db w) = []) child_tables.
Proof. vm_compute. repeat split; try done. repeat constructor. Qed.

(** *** A record that lacks a section *)


Lemma keeps_files_bind {A B} (m : M A) (k : A → M B) :
  keeps_files m → (∀ a, keeps_files (k a)) → keeps_files (m ≫= k).
Proof.
  intros Hm Hk w w' r. unfold mbind, M_bind.
  destruct (m w) as [w1 [a|e]] eqn:E.
  - intros H. destruct (Hm _ _ _ E) as [<- <-]. by eapply Hk.
  - intros [= <- <-]. by eapply Hm.
Qed.

Lemma keeps_files_lift {A} (r : result A) : keeps_files (lift r).
Proof. by intros w w' r' [= <- <-]. Qed.

Lemma keeps_files_hook_run s parameters : keeps_files (hook_run s parameters).
Proof.
  intros w w' r. unfold hook_run.
  destruct (execute _ _ _); by intros [= <- <-].
Qed.

Lemma keeps_files_hook_get_first q : keeps_files (hook_get_first q).
Proof. intros w w' r. unfold hook_get_first. destruct q. by intros [= <- <-]. Qed.

Lemma keeps_files_load_record data : keeps_files (load_record data).
Proof.
  unfold load_record.
  repeat first
    [ apply keeps_files_bind; [|intros ?]
    | apply keeps_files_lift
    | apply keeps_files_hook_run
    | apply keeps_files_hook_get_first ].
Qed.

Lemma keeps_files_load_file json_loads file_name :
  keeps_files (load_file json_loads file_name).
Proof.
  unfold load_file. destruct (endswith file_name ".json").
  - apply keeps_files_bind; [|intros ?; apply keeps_files_load_record].
    unfold json_load. apply keeps_files_bind.
    + intros w w' r. unfold file_read. destruct (files w !! _); by intros [= <- <-].
    + intros text. destruct (json_loads text); by intros w w' r [= <- <-].
  - by intros w w' r [= <- <-].
Qed.

Lemma keeps_files_for_each {A} (l : list A) (body : A → M unit) :
  (∀ x, keeps_files (body x)) → keeps_files (for_each l body).
Proof.
  intros Hbody. induction l as [|x l IH]; simpl.
  - by intros w w' r [= <- <-].
  - by apply keeps_files_bind.
Qed.



(** * Further properties *)

(** ** The texts [clean_description] returns *)

Lemma tidy_after_word (w rest : str) b :
  word w → tidy_after b (w ++ rest) = tidy_after false rest.
Proof.
  intros [Hne Hw]. revert b. induction w as [|c w IH]; intros b; [done|].
  simpl in Hw. apply andb_prop in Hw as [Hc Hw]. simpl.
  unfold notspace in Hc. destruct (isspace c); [done|].
  destruct w as [|d w]; [done|]. by apply IH.
Qed.

Lemma tidy_unwords (ws : list str) : Forall word ws → tidy (unwords ws) = true.
Proof.
  intros Hws.
  assert (ws ≠ [] → tidy_after true (unwords ws) = true) as H.
  { induction Hws as [|w ws Hw Hws IH]; [done|]. intros _.
    destruct ws as [|w' ws'].
    - simpl. rewrite <- (app_nil_r w). by rewrite tidy_after_word.
    - rewrite unwords_cons by done. rewrite tidy_after_word by done.
      change (tidy_after false (space :: unwords (w' :: ws')))
        with (tidy_after true (unwords (w' :: ws'))).
      by apply IH. }
  unfold tidy. destruct (unwords ws) eqn:E; [done|].
  apply H. by intros ->.
Qed.

Lemma tidy_after_scan (s : str) b :
  tidy_after b s = true →
  (scan s).1 ++ match (scan s).2 with
                | [] => []
                | ws => space :: unwords ws
                end = s
  ∧ (b = true → s ≠ [] ∧ (scan s).1 ≠ []).
Proof.
  revert b. induction s as [|c r IH]; intros b; simpl tidy_after.
  - destruct b; [done|]. by split.
  - simpl scan. destruct (scan r) as [w ws]. simpl in IH.
    destruct (isspace c) eqn:Hc.
    + intros [[Hb Hsp%bool_decide_eq_true]%andb_prop Hr]%andb_prop.
      destruct b; [done|]. destruct (IH true Hr) as [Hrender Hhead].
      destruct (Hhead eq_refl) as [_ Hw]. split; [|done].
      subst c. destruct w as [|d w]; [done|]. simpl.
      f_equal. rewrite <- Hrender.
      destruct ws; simpl; [by rewrite app_nil_r|done].
    + intros Hr. destruct (IH false Hr) as [Hrender _]. simpl.
      split; [by rewrite Hrender|done].
Qed.

Lemma tidy_unwords_words (s : str) : tidy s = true → unwords (words s) = s.
Proof.
  destruct s as [|c r]; [done|]. unfold tidy. intros Ht.
  destruct (tidy_after_scan _ _ Ht) as [Hrender Hhead].
  destruct (Hhead eq_refl) as [_ Hw]. rewrite words_scan.
  destruct (scan (c :: r)) as [w ws]. simpl in *.
  destruct w as [|d w]; [done|]. simpl push_word.
  rewrite <- Hrender. destruct ws; simpl; [by rewrite app_nil_r|done].
Qed.

(** X1: the texts [clean_description] returns unchanged are exactly the tidy
    ones: no whitespace at either end, and no whitespace inside but single
    spaces. *)
Theorem clean_description_fixed_points (s : str) :
  clean_description (PyStr s) = Ok s ↔ tidy s = true.
Proof.
  unfold clean_description. rewrite sub_spaces_strip. split.
  - intros [= H]. rewrite <- H. apply tidy_unwords, words_wf.
  - intros H. by rewrite tidy_unwords_words.
Qed.

(** X2: every text [clean_description] returns is tidy. *)
Theorem clean_description_tidy (s : str) :
  ∃ t, clean_description (PyStr s) = Ok t ∧ tidy t = true.
Proof.
  exists (unwords (words s)). unfold clean_description.
  rewrite sub_spaces_strip. split; [done|]. apply tidy_unwords, words_wf.
Qed.

(** X3: [clean_description] keeps the characters that are not whitespace, in
    their order, and drops or adds none. *)
Theorem clean_description_keeps_characters (s : str) :
  ∃ t, clean_description (PyStr s) = Ok t ∧
       filter (λ c, isspace c = false) t = filter (λ c, isspace c = false) s.
Proof.
  exists (unwords (words s)). unfold clean_description.
  rewrite sub_spaces_strip. split; [done|].
  rewrite <- !words_concat. by rewrite words_unwords by apply words_wf.
Qed.

(** X4: two texts are normalised to the same text exactly when they have the
    same words: [clean_description] forgets how much whitespace, and which,
    separated the words, and nothing else. *)
Theorem clean_description_same_words (s t : str) :
  clean_description (PyStr s) = clean_description (PyStr t)
  ↔ words s = words t.
Proof.
  unfold clean_description. rewrite !sub_spaces_strip. split.
  - intros [= H]. apply (f_equal words) in H.
    by rewrite !words_unwords in H by apply words_wf.
  - by intros ->.
Qed.

Lemma words_nil_spaces (s : str) : words s = [] → forallb isspace s = true.
Proof.
  induction s as [|c r IH]; [done|]. rewrite words_cons. simpl.
  destruct (isspace c); [exact IH|done].
Qed.

Lemma unwords_nil (ws : list str) : Forall word ws → unwords ws = [] → ws = [].
Proof.
  intros Hws. destruct Hws as [|w ws [Hne _] Hws]; [done|].
  destruct ws; simpl; [done|]. by destruct w.
Qed.

(** X5: [clean_description] returns the empty string only for an empty or
    whitespace-only text. *)
Theorem clean_description_empty_iff (s : str) :
  clean_description (PyStr s) = Ok [] ↔ forallb isspace s = true.
Proof.
  unfold clean_description. rewrite sub_spaces_strip. split.
  - intros [= H]. apply words_nil_spaces, unwords_nil; [apply words_wf|done].
  - intros H. by rewrite words_spaces.
Qed.

Lemma length_lstrip (s : str) : length (lstrip s) ≤ length s.
Proof.
  induction s as [|c r IH]; simpl; [done|]. destruct (isspace c); simpl; lia.
Qed.

Lemma length_strip (s : str) : length (strip s) ≤ length s.
Proof.
  unfold strip, rstrip. rewrite length_reverse.
  etrans; [apply length_lstrip|]. rewrite length_reverse. apply length_lstrip.
Qed.

Lemma length_sub_spaces (s : str) :
  length (sub_spaces s) ≤ length s ∧ length (sub_spaces_run s) ≤ length s.
Proof.
  induction s as [|c r [IH1 IH2]]; simpl; [done|].
  destruct (isspace c); simpl; lia.
Qed.

(** X6: the text [clean_description] returns is never longer than its
    argument. *)
Theorem clean_description_shorter (s : str) :
  ∃ t, clean_description (PyStr s) = Ok t ∧ length t ≤ length s.
Proof.
  eexists. split; [done|].
  etrans; [apply length_sub_spaces|apply length_strip].
Qed.

(** ** More on [extract] *)



Lemma artifacts_of_source (df : dataframe) :
  artifacts_of df !! source_file_path = None.
Proof.
  destruct (artifacts_of df !! source_file_path) as [s|] eqn:E; [|done].
  apply artifacts_of_lookup in E as (i & row & _ & Hp & _). done.
Qed.

Lemma extract_unreadable parse_csv w text :
  files w !! source_file_path = Some text →
  parse_csv text = None →
  ∃ w1,
    os_makedirs extracted_dir true w = (w1, Ok tt) ∧
    extract parse_csv w = (w1, Raise ParserError).
Proof.
  intros Hsrc Hparse.
  destruct (os_makedirs extracted_dir true w) as [w1 r] eqn:Hmk.
  destruct (os_makedirs_exist_ok _ _ _ _ Hmk) as (-> & Hf & _).
  exists w1. split; [done|]. unfold extract. erewrite bind_ok by done.
  erewrite bind_ok; last first.
  { unfold attempt, pd_read_csv. by rewrite Hf, Hsrc, Hparse. }
  done.
Qed.

Lemma extract_missing parse_csv w :
  files w !! source_file_path = None →
  ∃ w1,
    os_makedirs extracted_dir true w = (w1, Ok tt) ∧
    extract parse_csv w =
      ({| dirs := dirs w1; files := files w;
          stdout := stdout w
            ++ ["Error: The source file 'source/jobs.csv' does not exist."];
          db := db w |}, Ok tt).
Proof.
  intros Hsrc.
  destruct (os_makedirs extracted_dir true w) as [w1 r] eqn:Hmk.
  destruct (os_makedirs_exist_ok _ _ _ _ Hmk) as (-> & Hf & Hs & Hdb & _).
  exists w1. split; [done|]. unfold extract. erewrite bind_ok by done.
  erewrite bind_ok; last first.
  { unfold attempt, pd_read_csv. by rewrite Hf, Hsrc. }
  unfold print. simpl. by rewrite Hf, Hs, Hdb.
Qed.



(** What every outcome of [extract] has in common. *)
Lemma extract_cases parse_csv w :
  ∃ w1 r fs out,
    os_makedirs extracted_dir true w = (w1, Ok tt) ∧
    extract parse_csv w
    = ({| dirs := dirs w1; files := fs ∪ files w; stdout := stdout w ++ out;
          db := db w |}, r) ∧
    fs !! source_file_path = None ∧
    ((files w !! source_file_path = None ∧ fs = ∅ ∧ r = Ok tt) ∨
     (∃ text, files w !! source_file_path = Some text ∧
              parse_csv text = None ∧ fs = ∅ ∧ r = Raise ParserError) ∨
     (∃ text df, files w !! source_file_path = Some text ∧
                 parse_csv text = Some df ∧ fs = artifacts_of df ∧ r = Ok tt)).
Proof.
  destruct (files w !! source_file_path) as [text|] eqn:Hsrc.
  - destruct (parse_csv text) as [df|] eqn:Hparse.
    + destruct (extract_readable _ _ _ _ Hsrc Hparse) as (w1 & Hmk & ->).
      eexists w1, _, (artifacts_of df), _. split; [done|]. split; [done|].
      split; [apply artifacts_of_source|]. right. right. by exists text, df.
    + destruct (extract_unreadable _ _ _ Hsrc Hparse) as (w1 & Hmk & ->).
      destruct (os_makedirs_exist_ok _ _ _ _ Hmk) as (_ & Hf & Hs & Hdb & _).
      exists w1, (Raise ParserError), ∅, []. split; [done|]. split.
      { destruct w1. simpl in *. rewrite (left_id_L ∅ (∪)), app_nil_r.
        by rewrite Hf, Hs, Hdb. }
      split; [done|]. right. left. by exists text.
  - destruct (extract_missing parse_csv _ Hsrc) as (w1 & Hmk & ->).
    eexists w1, _, ∅, _. split; [done|]. split.
    { by rewrite (left_id_L ∅ (∪)). }
    split; [done|]. by left.
Qed.

(** X9: whatever its outcome, [extract] leaves the sink alone, removes no
    file and leaves the source file as it was. *)
Theorem extract_frame parse_csv w :
  db (extract parse_csv w).1 = db w ∧
  dom (files w) ⊆ dom (files (extract parse_csv w).1) ∧
  dirs w ⊆ dirs (extract parse_csv w).1 ∧
  files (extract parse_csv w).1 !! source_file_path
  = files w !! source_file_path.
Proof.
  destruct (extract_cases parse_csv w)
    as (w1 & r & fs & out & Hmk & -> & Hsrc & _).
  destruct (os_makedirs_exist_ok _ _ _ _ Hmk) as (_ & _ & _ & _ & Hd).
  simpl. split; [done|]. split; [|split; [done|]].
  - rewrite dom_union_L. set_solver.
  - by rewrite lookup_union_r.
Qed.

(** X10: running [extract] again changes nothing in the staging area: the
    files and directories after two runs in a row are those after one, and
    the outcome is the same. *)
Theorem extract_twice parse_csv w :
  let once := extract parse_csv w in
  let twice := (extract parse_csv;; extract parse_csv) w in
  files twice.1 = files once.1 ∧ dirs twice.1 = dirs once.1 ∧
  db twice.1 = db once.1 ∧ twice.2 = once.2.
Proof.
  simpl. unfold mbind at 1 2 3 4, M_bind.
  destruct (extract_cases parse_csv w)
    as (w1 & r & fs & out & Hmk & Hrun & Hsrc & Hcases).
  rewrite Hrun.
  destruct Hcases as [(Hnone & -> & ->)|[(text & Htext & Hparse & -> & ->)
                                        |(text & df & Htext & Hparse & -> & ->)]];
    [|done|].
  - set (w2 := {| dirs := dirs w1 |}).
    destruct (extract_missing parse_csv w2) as (w3 & Hmk3 & ->).
    { simpl. by rewrite lookup_union_r. }
    pose proof (dir_exists_makedirs _ _ _ _ _ Hmk) as Hd.
    unfold os_makedirs in Hmk3.
    assert (dir_exists extracted_dir w2 = true) as E by done.
    rewrite E in Hmk3. by injection Hmk3 as <-.
  - set (w2 := {| dirs := dirs w1 |}).
    destruct (extract_readable parse_csv w2 text df) as (w3 & Hmk3 & ->);
      [|done|].
    { simpl. by rewrite lookup_union_r. }
    pose proof (dir_exists_makedirs _ _ _ _ _ Hmk) as Hd.
    unfold os_makedirs in Hmk3.
    assert (dir_exists extracted_dir w2 = true) as E by done.
    rewrite E in Hmk3. injection Hmk3 as <-. simpl.
    split; [|done]. by rewrite (assoc_L (∪)), (idemp_L (∪)).
Qed.

(** ** More on [transform] *)

(** X11: the record [transform] builds is, for every description, a record
    [load] takes as well formed: the six sections, each with a scalar for
    every field its [INSERT] names. *)
Theorem transformed_record_well_formed (description : str) :
  well_formed (transformed_record description) = true.
Proof. reflexivity. Qed.









(** *** From [job_<index>.txt] to [job_<index>.json] *)

Lemma string_app_assoc (a b c : string) : (a +:+ b) +:+ c = a +:+ (b +:+ c).
Proof. induction a as [|x a IH]; [done|]. rewrite !string_app_cons. by f_equal. Qed.

Lemma list_ascii_app (a b : string) :
  String.list_ascii_of_string (a +:+ b)
  = String.list_ascii_of_string a ++ String.list_ascii_of_string b.
Proof.
  induction a as [|x a IH]; [done|]. rewrite string_app_cons. simpl.
  by rewrite IH.
Qed.

Lemma replace_from_0 (old new : string) c r :
  replace_from old new 0 (String c r)
  = if String.prefix old (String c r)
    then new +:+ replace_from old new (String.length old - 1) r
    else String c (replace_from old new 0 r).
Proof. done. Qed.

Lemma prefix_head_ne a p c r :
  a ≠ c → String.prefix (String a p) (String c r) = false.
Proof. intros Hne. cbn [String.prefix]. by destruct (ascii_dec a c). Qed.

(** [replace] leaves a text without a dot alone and rewrites the suffix. *)
Lemma replace_txt_suffix (s : string) :
  Forall (λ c, c ≠ "."%char) (String.list_ascii_of_string s) →
  replace (s +:+ ".txt") ".txt" ".json" = s +:+ ".json".
Proof.
  unfold replace. induction s as [|c s IH]; [done|].
  simpl String.list_ascii_of_string. intros [Hc Hs]%Forall_cons.
  rewrite !string_app_cons, replace_from_0.
  rewrite prefix_head_ne by done. f_equal. by apply IH.
Qed.

Lemma pretty_N_char_no_dot (x : N) : pretty_N_char x ≠ "."%char.
Proof. unfold pretty_N_char. by repeat case_match. Qed.

Lemma pretty_N_go_no_dot (x : N) (s : string) :
  Forall (λ c, c ≠ "."%char) (String.list_ascii_of_string s) →
  Forall (λ c, c ≠ "."%char) (String.list_ascii_of_string (pretty_N_go x s)).
Proof.
  revert s. induction (N.lt_wf_0 x) as [x _ IH]; intros s Hs.
  assert (x = 0 ∨ 0 < x)%N as [->|Hx] by lia.
  - by rewrite pretty_N_go_0.
  - rewrite pretty_N_go_step by done. apply IH.
    + by apply N.div_lt.
    + simpl. constructor; [apply pretty_N_char_no_dot|done].
Qed.

Lemma pretty_nat_no_dot (n : nat) :
  Forall (λ c, c ≠ "."%char) (String.list_ascii_of_string (pretty n)).
Proof.
  unfold pretty, pretty_nat, pretty, pretty_N. case_decide.
  - by repeat constructor.
  - by apply pretty_N_go_no_dot.
Qed.

(** X14: [transform] names the record of the artifact [job_<index>.txt]
    [job_<index>.json]: for the names [extract] gives, replacing [.txt]
    touches the extension only. *)
Theorem record_name_of_artifact (index : nat) :
  replace ("job_" +:+ pretty index +:+ ".txt") ".txt" ".json"
  = "job_" +:+ pretty index +:+ ".json".
Proof.
  rewrite <- !string_app_assoc. apply replace_txt_suffix.
  rewrite list_ascii_app. apply Forall_app. split.
  - by repeat constructor.
  - apply pretty_nat_no_dot.
Qed.

(** ** More on [load] *)













Lemma keeps_files_load json_loads os_order :
  keeps_files (load json_loads os_order).
Proof.
  unfold load. apply keeps_files_bind.
  - intros w w' r. unfold os_listdir. destruct (dir_exists _ _); by intros [= <- <-].
  - intros names. apply keeps_files_bind.
    + apply keeps_files_for_each, keeps_files_load_file.
    + intros _ w w' r. unfold print. by intros [= <- <-].
Qed.

(** X19: whatever its outcome, [load] leaves the staging area as it is: it
    writes, renames and removes no file, so the artifacts it has loaded are
    still there for the next run. *)
Theorem load_keeps_staging json_loads os_order w :
  files (load json_loads os_order w).1 = files w ∧
  dirs (load json_loads os_order w).1 = dirs w.
Proof.
  destruct (load json_loads os_order w) as [w' r] eqn:Hrun.
  by apply (keeps_files_load json_loads os_order w w' r).
Qed.

(** X20: on a sink without the [job] table (before [create_tables] has
    run), a record that has its six sections stops at the first statement:
    the [INSERT] into [job] raises and no table is touched. *)
Theorem load_record_without_schema (data : pyobj) w :
  (∀ section, section ∈ sections → ∃ v, getitem data section = Ok v) →
  tables (db w) !! "job" = None →
  ∃ w' job_data,
    getitem data "job" = Ok job_data ∧
    load_record data w = (w', Raise SqliteError) ∧
    tables (db w') = tables (db w) ∧
    journal (db w') = journal (db w) ++ [Ran insert_job_query (Some job_data)] ∧
    files w' = files w.
Proof.
  intros Hsections Hjob.
  destruct (Hsections "job") as [job_data Hj]; [set_solver|].
  destruct (Hsections "company") as [company_data Hc]; [set_solver|].
  destruct (Hsections "education") as [education_data He]; [set_solver|].
  destruct (Hsections "experience") as [experience_data Hx]; [set_solver|].
  destruct (Hsections "salary") as [salary_data Hs]; [set_solver|].
  destruct (Hsections "location") as [location_data Hl]; [set_solver|].
  eexists _, job_data. split; [done|]. split.
  - unfold load_record.
    repeat (erewrite bind_ok; [|unfold lift; f_equal; eassumption]).
    apply bind_raise. unfold hook_run, execute, insert_job_query. simpl.
    by rewrite Hjob.
  - done.
Qed.

Lemma load_record_without_schema_witness :
  ∃ w' job_data,
    getitem (transformed_record (lit "Hello world")) "job" = Ok job_data ∧
    load_record (transformed_record (lit "Hello world")) blank_world
    = (w', Raise SqliteError) ∧
    tables (db w') = tables (db blank_world) ∧
    journal (db w')
    = journal (db blank_world) ++ [Ran insert_job_query (Some job_data)] ∧
    files w' = files blank_world.
Proof.
  apply (load_record_without_schema
           (transformed_record (lit "Hello world")) blank_world).
  - intros section Hin. unfold sections in Hin.
    repeat (apply elem_of_cons in Hin as [->|Hin]; [by eexists|]).
    by apply elem_of_nil in Hin.
  - reflexivity.
Defined.

(** ** More on [create_tables] *)

Lemma hook_run_create_missing name cols fks w :
  tables (db w) !! name = None →
  ∃ w', hook_run (CreateTableIfNotExists name cols fks) None w = (w', Ok tt) ∧
        tables (db w') = <[name := Table cols fks 0 []]> (tables (db w)).
Proof.
  intros Hnone.
  destruct (hook_run_create name cols fks w) as (w' & Hrun & _ & _ & _ & Ht).
  rewrite Hnone in Ht. by exists w'.
Qed.

Lemma create_all_missing (qs : list statement) w :
  Forall (λ q, is_Some (created_table q)) qs →
  NoDup (omap created_table qs) →
  (∀ name, name ∈ omap created_table qs → tables (db w) !! name = None) →
  ∃ w', for_each qs (λ query, hook_run query None) w = (w', Ok tt) ∧
        ∀ name cols fks,
          CreateTableIfNotExists name cols fks ∈ qs →
          tables (db w') !! name = Some (Table cols fks 0 []).
Proof.
  intros Hqs. revert w.
  induction Hqs as [|q qs [name Hq] Hqs IH]; intros w Hdup Hnone.
  - exists w. split; [done|]. intros ??? Hin. by apply elem_of_nil in Hin.
  - destruct q as [name' cols fks|]; [|done]. injection Hq as ->.
    simpl in Hdup, Hnone. apply NoDup_cons in Hdup as [Hfresh Hdup].
    destruct (hook_run_create_missing name cols fks w) as (w1 & Hrun & Ht1).
    { apply Hnone. by left. }
    destruct (IH w1 Hdup) as (w' & Hrest & Hall).
    { intros n Hn. rewrite Ht1, lookup_insert_ne; [apply Hnone; by right|].
      by intros ->. }
    destruct (create_all qs w1 Hqs) as (w'' & Hrest' & _ & _ & _ & _ & Hkeep & _).
    rewrite Hrest in Hrest'. injection Hrest' as <-.
    exists w'. simpl for_each. erewrite bind_ok by exact Hrun.
    split; [done|]. intros n c f [Heq|Hin]%elem_of_cons.
    + injection Heq as -> -> ->. apply Hkeep. rewrite Ht1.
      apply lookup_insert_eq.
    + by apply Hall.
Qed.

(** X21: on a sink that has none of the six tables, [create_tables] leaves
    them all in place, empty and with the columns the statements declare, so
    that every [INSERT] of [load] names a table and columns that exist. *)
Theorem create_tables_makes_schema w :
  (∀ name, name ∈ sections → tables (db w) !! name = None) →
  ∃ w', create_tables w = (w', Ok tt) ∧
        schema_ready (db w') = true ∧
        ∀ name, name ∈ sections →
          ∃ t, tables (db w') !! name = Some t ∧ tbl_rows t = [] ∧
               tbl_sequence t = 0%Z.
Proof.
  intros Hnone.
  destruct (create_all_missing TABLE_CREATION_QUERIES w) as (w' & Hrun & Hall).
  { repeat constructor; by eexists. }
  { simpl. apply (bool_decide_unpack _). by vm_compute. }
  { exact Hnone. }
  exists w'. split; [done|]. split.
  - unfold schema_ready. apply forallb_forall. intros q Hq.
    apply list_elem_of_In in Hq. destruct q as [name cols fks|]; [|done].
    rewrite (Hall _ _ _ Hq). by apply bool_decide_eq_true.
  - intros name Hin.
    change sections with (omap created_table TABLE_CREATION_QUERIES) in Hin.
    apply list_elem_of_omap in Hin as (q & Hq & Hname).
    destruct q as [n cols fks|]; [|done]. injection Hname as ->.
    eexists. split; [by apply Hall|done].
Qed.

Lemma create_tables_makes_schema_witness :
  ∃ w', create_tables blank_world = (w', Ok tt) ∧
        schema_ready (db w') = true ∧
        ∀ name, name ∈ sections →
          ∃ t, tables (db w') !! name = Some t ∧ tbl_rows t = [] ∧
               tbl_sequence t = 0%Z.
Proof.
  apply (create_tables_makes_schema blank_world).
  intros name Hin. reflexivity.
Defined.

(** ** The whole pipeline *)










